(** * typescriptFundamentals: the users resource and the generic DataStore

    A shallow embedding of [src/users.ts] (the three Express handlers over
    the module-level array [users]), of the routes that dispatch to them,
    and of the class [DataStore<T>] of [src/example-scripts/Generics.ts],
    together with the properties of the specification stated against them.

    JavaScript values are modelled as follows.
    - [number]: NaN, the two infinities, the integers, and the numbers
      with a fractional part, written as an odd numerator over a power of
      two (every finite double is an integer or such a fraction).  The
      programs compute integers only ([users.length + 1], the seed ids,
      the results of [parseInt]), but a caller may pass any number as an
      index or an age.  [-0] is identified with [0], which [===] and
      [JSON.stringify] cannot tell apart.
    - [string]: Rocq strings, one character per code unit (code units
      below 256).
    - arrays: lists, [push] appends at the end, [find] is the first match.
    - [undefined] as a result: [None]. *)

From Stdlib Require Import ZArith QArith Qround String Ascii Bool Lia.
From stdpp Require Import base list.

Local Open Scope string_scope.
Local Open Scope list_scope.
Local Open Scope Z_scope.

(** ** JavaScript numbers, comparison and [parseInt] *)

Module Js.

Inductive number : Type :=
| NaN
| PosInfinity
| NegInfinity
| Int (z : Z)
| Frac (m : Z) (e : positive).   (* (2m + 1) / 2^e, never an integer *)

(** [a === b] on numbers: NaN is different from everything, itself
    included; a fraction is never an integer, and two fractions are equal
    when they are the same fraction. *)
Definition strict_eq (a b : number) : bool :=
  match a, b with
  | Int x, Int y => x =? y
  | Frac m e, Frac m' e' => (m =? m') && (e =? e')%positive
  | PosInfinity, PosInfinity => true
  | NegInfinity, NegInfinity => true
  | _, _ => false
  end.

(** [a < b]: false as soon as one side is NaN; finite numbers are compared
    as fractions, by cross multiplication. *)
Definition lt (a b : number) : bool :=
  match a, b with
  | Int x, Int y => x <? y
  | Int x, Frac m e => x * 2 ^ Z.pos e <? 2 * m + 1
  | Frac m e, Int y => 2 * m + 1 <? y * 2 ^ Z.pos e
  | Frac m e, Frac m' e' => (2 * m + 1) * 2 ^ Z.pos e' <? (2 * m' + 1) * 2 ^ Z.pos e
  | NegInfinity, (Int _ | Frac _ _ | PosInfinity) => true
  | (Int _ | Frac _ _), PosInfinity => true
  | _, _ => false
  end.

(** The integer part of a fraction, rounded towards zero (the conversion
    of a finite number to an integer that [splice] applies). *)
Definition truncate (m : Z) (e : positive) : Z := Z.quot (2 * m + 1) (2 ^ Z.pos e).

(** [a >= b]: false as soon as one side is NaN. *)
Definition ge (a b : number) : bool :=
  match a, b with
  | NaN, _ | _, NaN => false
  | _, _ => negb (lt a b)
  end.

(** Rounding of a natural number to the nearest double, ties to even:
    below [2^53] every integer is a double; above, the 53 leading bits are
    kept and the rest is rounded. *)
Definition round_double (m : Z) : Z :=
  if m <? 2 ^ 53 then m
  else
    let e := Z.log2 m - 52 in
    let q := Z.shiftr m e in
    let r := Z.land m (Z.ones e) in
    let half := Z.shiftl 1 (e - 1) in
    let q' := if (half <? r) || ((r =? half) && Z.odd q) then q + 1 else q in
    Z.shiftl q' e.

(** The Number value of a mathematical integer (the specification's
    conversion of a mathematical value to a Number). *)
Definition of_Z (z : Z) : number :=
  let m := round_double (Z.abs z) in
  if Z.shiftl 1 1024 <=? m
  then (if z <? 0 then NegInfinity else PosInfinity)
  else Int (Z.sgn z * m).

Definition code (c : ascii) : Z := Z.of_N (N_of_ascii c).

(** White space and line terminators, as far as one-byte code units go:
    TAB, LF, VT, FF, CR, SP and NBSP. *)
Definition is_whitespace (c : ascii) : bool :=
  let n := code c in
  ((9 <=? n) && (n <=? 13)) || (n =? 32) || (n =? 160).

Fixpoint trim_start (s : string) : string :=
  match s with
  | String c rest => if is_whitespace c then trim_start rest else s
  | EmptyString => s
  end.

(** The value of a character as a digit: [0-9], then letters of either
    case for 10 to 35. *)
Definition digit_value (c : ascii) : option Z :=
  let n := code c in
  if (48 <=? n) && (n <=? 57) then Some (n - 48)
  else if (97 <=? n) && (n <=? 122) then Some (n - 87)
  else if (65 <=? n) && (n <=? 90) then Some (n - 55)
  else None.

Definition radix_digit (R : Z) (c : ascii) : option Z :=
  match digit_value c with
  | Some d => if d <? R then Some d else None
  | None => None
  end.

(** The longest prefix of radix-[R] digits, read as an integer; [acc] is
    [None] as long as no digit has been read. *)
Fixpoint scan_digits (R : Z) (s : string) (acc : option Z) : option Z :=
  match s with
  | String c rest =>
      match radix_digit R c with
      | Some d => scan_digits R rest (Some (default 0 acc * R + d))
      | None => acc
      end
  | EmptyString => acc
  end.

Definition sign_of (s : string) : Z :=
  match s with
  | String c _ => if (c =? "-")%char then -1 else 1
  | EmptyString => 1
  end.

Definition drop_sign (s : string) : string :=
  match s with
  | String c rest => if (c =? "+")%char || (c =? "-")%char then rest else s
  | EmptyString => s
  end.

Definition strip_prefix (s : string) : option string :=
  match s with
  | String "0" (String "x" rest) | String "0" (String "X" rest) => Some rest
  | _ => None
  end.

(** [parseInt(string, radix)] for a radix already an int32: leading white
    space is dropped, then one sign; radix 0 means 10; for radix 0 and 16
    a [0x] prefix is dropped (and makes the radix 16); the digits that
    follow are read up to the first character that is not one; NaN when
    there is none or when the radix is outside 2..36. *)
Definition parseInt (input : string) (radix : Z) : number :=
  let trimmed := trim_start input in
  let sign := sign_of trimmed in
  let unsigned := drop_sign trimmed in
  let stripPrefix := (radix =? 0) || (radix =? 16) in
  let R := if radix =? 0 then 10 else radix in
  if (R <? 2) || (36 <? R) then NaN
  else
    let (R', digits) :=
      match (if stripPrefix then strip_prefix unsigned else None) with
      | Some rest => (16, rest)
      | None => (R, unsigned)
      end in
    match scan_digits R' digits None with
    | None => NaN
    | Some mathInt => of_Z (sign * mathInt)
    end.

End Js.

(** ** Arrays *)

Module Array.

Section Ops.
Context {T : Type}.

(** [a.push(x)]: the array with [x] added at the end. *)
Definition push (x : T) (a : list T) : list T := a ++ [x].

(** [a.find(p)]: the first element that satisfies [p], or [undefined]. *)
Fixpoint find (p : T -> bool) (a : list T) : option T :=
  match a with
  | [] => None
  | x :: rest => if p x then Some x else find p rest
  end.

(** [a[index]]: the element at an integer index inside the array, and
    [undefined] for every other key (negative, too large, with a
    fractional part, NaN, infinite). *)
Definition get (a : list T) (index : Js.number) : option T :=
  match index with
  | Js.Int i => if 0 <=? i then a !! Z.to_nat i else None
  | _ => None
  end.

(** Where [splice] starts: the position as an integer (NaN is 0, a
    fraction is rounded towards zero), counted from the end when negative,
    and clamped to the array. *)
Definition splice_start (len : Z) (start : Js.number) : Z :=
  let clamp (i : Z) := if i <? 0 then Z.max (len + i) 0 else Z.min i len in
  match start with
  | Js.NaN => 0
  | Js.NegInfinity => 0
  | Js.PosInfinity => len
  | Js.Int i => clamp i
  | Js.Frac m e => clamp (Js.truncate m e)
  end.

(** [a.splice(start, deleteCount)]: the array left after [deleteCount]
    elements (as many as there are) are taken out from [start] on. *)
Definition splice (start : Js.number) (deleteCount : Z) (a : list T) : list T :=
  let len := Z.of_nat (length a) in
  let actualStart := splice_start len start in
  let actualDeleteCount := Z.min (Z.max deleteCount 0) (len - actualStart) in
  take (Z.to_nat actualStart) a
    ++ drop (Z.to_nat (actualStart + actualDeleteCount)) a.
End Ops.

End Array.

(** ** The part of Express the handlers use *)

Module UserData.
Record t : Type := mk { id : Js.number; name : string; email : string; age : Js.number }.
End UserData.

Module CreateUserInput.
Record t : Type := mk { name : string; email : string; age : Js.number }.
End CreateUserInput.

Module Express.

(** What a handler passes to [res.json]. *)
Inductive Body : Type :=
| Users (us : list UserData.t)                        (* [users] *)
| User (u : UserData.t)                               (* [user] *)
| Message (message : string)                          (* [{ message }] *)
| MessageUser (message : string) (user : UserData.t). (* [{ message, user }] *)

Record Response : Type := { statusCode : Z; sent : option Body }.

(** The response object a handler receives: status 200, nothing sent. *)
Definition fresh : Response := {| statusCode := 200; sent := None |}.

Definition status (code : Z) (res : Response) : Response :=
  {| statusCode := code; sent := sent res |}.

Definition json (b : Body) (res : Response) : Response :=
  {| statusCode := statusCode res; sent := Some b |}.

(** [Request<Params, ResBody, ReqBody>], with the two parts that are read. *)
Record Request (P B : Type) : Type := { params : P; body : B }.
Arguments params {P B} _.
Arguments body {P B} _.

End Express.

(** ** src/users.ts *)

Module users_ts.
Import Express.

Record IdParams : Type := { id : string }.

(** The module-level array [users], the only state of the module. *)
Record State : Type := { users : list UserData.t }.

(** The array literal [users] is bound to when the module is loaded. *)
Definition initial : State :=
  {| users :=
       [ UserData.mk (Js.Int 1) "Alice" "alice@example.com" (Js.Int 28);
         UserData.mk (Js.Int 2) "Bob" "bob@example.com" (Js.Int 34);
         UserData.mk (Js.Int 3) "Charlie" "charlie@example.com" (Js.Int 25) ] |}.

(** A handler reads and writes the module state and the response object. *)
Definition Handler (P B : Type) : Type :=
  Request P B -> State -> Response -> State * Response.

Definition getAllUsers {P B} : Handler P B := fun req st res =>
  (st, json (Users (users st)) (status 200 res)).

(** [{ id: users.length + 1, ...req.body }]: the handler is typed for a
    body that is a [CreateUserInput], an object with the keys [name],
    [email] and [age] and no other; for such a body the spread adds these
    three after [id].  A body with other keys (an [id] of its own would
    replace the computed one) is outside this type and is not modelled. *)
Definition createUser : Handler unit CreateUserInput.t := fun req st res =>
  let newUser : UserData.t :=
    {| UserData.id := Js.Int (Z.of_nat (length (users st)) + 1);
       UserData.name := CreateUserInput.name (body req);
       UserData.email := CreateUserInput.email (body req);
       UserData.age := CreateUserInput.age (body req) |} in
  (* users.push(newUser) is commented out in the source: [users] stays as it is *)
  (st, json (MessageUser "User created successfully" newUser) (status 201 res)).

Definition getUserById : Handler IdParams unit := fun req st res =>
  let userId : Js.number := Js.parseInt (id (params req)) 10 in
  let user := Array.find (fun u => Js.strict_eq (UserData.id u) userId) (users st) in
  match user with
  | Some u => (st, json (User u) (status 200 res))
  | None => (st, json (Message "User not found") (status 404 res))
  end.

(** *** The routes of the server that reach these handlers *)

Inductive Call : Type :=
| GET_users                                  (* GET /api/users *)
| GET_users_id (id : string)                 (* GET /api/users/:id *)
| POST_users (body : CreateUserInput.t).     (* POST /api/users *)

(** One request: the matching handler runs on a fresh response object. *)
Definition dispatch (c : Call) (st : State) : State * Response :=
  match c with
  | GET_users => getAllUsers {| params := tt; body := tt |} st fresh
  | GET_users_id i => getUserById {| params := {| id := i |}; body := tt |} st fresh
  | POST_users b => createUser {| params := tt; body := b |} st fresh
  end.

(** A sequence of requests, one after the other (the server runs each
    handler to completion); the responses come in the order of the calls. *)
Fixpoint run (cs : list Call) (st : State) : State * list Response :=
  match cs with
  | [] => (st, [])
  | c :: rest =>
      let (st1, r) := dispatch c st in
      let (st2, rs) := run rest st1 in
      (st2, r :: rs)
  end.

Definition is_read (c : Call) : bool :=
  match c with
  | GET_users | GET_users_id _ => true
  | POST_users _ => false
  end.

(** The id of the user a create response carries. *)
Definition created_id (r : Response) : option Js.number :=
  match sent r with
  | Some (MessageUser _ u) => Some (UserData.id u)
  | _ => None
  end.

End users_ts.

(** ** src/example-scripts/Generics.ts: [class DataStore<T>] *)

Module DataStore.

Section Class.
Context {T : Type}.

(** An instance: its private field [items]. *)
Record t : Type := { items : list T }.

Definition constructor : t := {| items := [] |}.

Definition addItem (item : T) (this : t) : t :=
  {| items := Array.push item (items this) |}.

Definition getItem (index : Js.number) (this : t) : option T :=
  Array.get (items this) index.

Definition removeItem (index : Js.number) (this : t) : t :=
  if Js.ge index (Js.Int 0) && Js.lt index (Js.Int (Z.of_nat (length (items this))))
  then {| items := Array.splice index 1 (items this) |}
  else this.

Definition getAllItems (this : t) : list T := items this.
End Class.
Arguments t : clear implicits.

End DataStore.

(** ** Vocabulary of the properties *)

Module Props.
Import Express users_ts.

Definition dave : CreateUserInput.t :=
  CreateUserInput.mk "Dave" "dave@x.com" (Js.Int 22).

Definition eve : CreateUserInput.t :=
  CreateUserInput.mk "Eve" "eve@x.com" (Js.Int 31).

Definition alice : UserData.t :=
  UserData.mk (Js.Int 1) "Alice" "alice@example.com" (Js.Int 28).
Definition bob : UserData.t :=
  UserData.mk (Js.Int 2) "Bob" "bob@example.com" (Js.Int 34).
Definition charlie : UserData.t :=
  UserData.mk (Js.Int 3) "Charlie" "charlie@example.com" (Js.Int 25).

(** The request objects the routes build. *)
Definition no_params : Request unit unit := {| params := tt; body := tt |}.
Definition with_body (b : CreateUserInput.t) : Request unit CreateUserInput.t :=
  {| params := tt; body := b |}.
Definition with_id (i : string) : Request IdParams unit :=
  {| params := {| id := i |}; body := tt |}.

(** [u] is the first element of [us] whose id is [=== k]. *)
Definition first_with_id (k : Js.number) (us : list UserData.t) (u : UserData.t) : Prop :=
  exists pre post,
    us = pre ++ u :: post
    /\ Js.strict_eq (UserData.id u) k = true
    /\ forall v, v ∈ pre -> Js.strict_eq (UserData.id v) k = false.

(** Some element of [us] has an id [=== k]. *)
Definition has_id (k : Js.number) (us : list UserData.t) : Prop :=
  exists u, u ∈ us /\ Js.strict_eq (UserData.id u) k = true.

(** The ids carried by the create responses among [rs], in order. *)
Definition created_ids (rs : list Response) : list Js.number :=
  omap created_id rs.

(** Every id of the list is smaller than all the later ones. *)
Definition strictly_increasing (ids : list Js.number) : Prop :=
  forall i j a b, (i < j)%nat -> ids !! i = Some a -> ids !! j = Some b ->
    Js.lt a b = true.

(** Decimal digits and the integer a string of them denotes. *)
Definition is_digit (c : ascii) : bool := (48 <=? Js.code c) && (Js.code c <=? 57).

Definition starts_with_digit (s : string) : bool :=
  match s with
  | String c _ => is_digit c
  | EmptyString => false
  end.

Fixpoint all_digits (s : string) : bool :=
  match s with
  | String c rest => is_digit c && all_digits rest
  | EmptyString => true
  end.

Fixpoint decimal_from (acc : Z) (s : string) : Z :=
  match s with
  | String c rest => decimal_from (acc * 10 + (Js.code c - 48)) rest
  | EmptyString => acc
  end.

Definition decimal_value (s : string) : Z := decimal_from 0 s.

(** What is left of a parameter once the white space in front and one sign
    are skipped. *)
Definition after_space_and_sign (s : string) : string :=
  Js.drop_sign (Js.trim_start s).

(** An index of an array of length [n]. *)
Definition in_bounds (index : Js.number) (n : nat) : Prop :=
  exists i, index = Js.Int i /\ 0 <= i < Z.of_nat n.

(** The rational a finite number denotes. *)
Definition rational (x : Js.number) : option Q :=
  match x with
  | Js.Int z => Some (inject_Z z)
  | Js.Frac m e => Some ((2 * m + 1) # (2 ^ e)%positive)
  | _ => None
  end.

(** [0 <= index < n] as numbers: [index] is finite and lies in the
    interval, with or without a fractional part. *)
Definition in_interval (index : Js.number) (n : nat) : Prop :=
  exists q, rational index = Some q
    /\ (0 <= q)%Q /\ (q < inject_Z (Z.of_nat n))%Q.

End Props.

(** ** Client code and vocabulary of the further properties *)

Module Clients.
Import Express users_ts.

(** A client that adds the items of [xs] one after the other, as the
    script of Generics.ts does with its two users. *)
Definition addItems {T : Type} (xs : list T) (this : DataStore.t T) : DataStore.t T :=
  foldl (fun store x => DataStore.addItem x store) this xs.

(** A client that calls [removeItem(0)] [n] times. *)
Definition removeFirst {T : Type} (n : nat) (this : DataStore.t T) : DataStore.t T :=
  Nat.iter n (DataStore.removeItem (Js.Int 0)) this.

Fixpoint all_whitespace (s : string) : bool :=
  match s with
  | String c rest => Js.is_whitespace c && all_whitespace rest
  | EmptyString => true
  end.

(** No two positions of [us] hold ids that are [===]. *)
Definition distinct_ids (us : list UserData.t) : Prop :=
  forall (i j : nat) u v, us !! i = Some u -> us !! j = Some v ->
    Js.strict_eq (UserData.id u) (UserData.id v) = true -> i = j.


(** The response that carries [b] with status [code]. *)
Definition response (code : Z) (b : Body) : Response :=
  {| statusCode := code; sent := Some b |}.

End Clients.

(** ** Arrays: what [find] returns *)

Section ArrayFacts.
Context {T : Type}.
Implicit Types (p : T -> bool) (a : list T).

Lemma find_Some_first p a x :
  Array.find p a = Some x ->
  exists pre post, a = pre ++ x :: post /\ p x = true
                   /\ forall y, y ∈ pre -> p y = false.
Proof.
  induction a as [|h a IH]; simpl; [discriminate|].
  destruct (p h) eqn:Hh.
  - intros [= ->]. exists [], a. split_and!; auto.
    intros y Hy. inversion Hy.
  - intros Hx. destruct (IH Hx) as (pre & post & -> & Hp & Hpre).
    exists (h :: pre), post. split_and!; auto.
    intros y Hy. apply elem_of_cons in Hy as [->|Hy]; auto.
Qed.

Lemma find_None_all p a :
  Array.find p a = None <-> forall y, y ∈ a -> p y = false.
Proof.
  induction a as [|h a IH]; simpl.
  - split; [|done]. intros _ y Hy. inversion Hy.
  - destruct (p h) eqn:Hh.
    + split; [discriminate|]. intros H.
      specialize (H h (list_elem_of_here h a)). congruence.
    + rewrite IH. split.
      * intros H y Hy. apply elem_of_cons in Hy as [->|Hy]; auto.
      * intros H y Hy. apply H. by apply list_elem_of_further.
Qed.

Lemma find_first_Some p a pre x post :
  a = pre ++ x :: post -> p x = true ->
  (forall y, y ∈ pre -> p y = false) ->
  Array.find p a = Some x.
Proof.
  intros -> Hx. induction pre as [|h pre IH]; simpl; intros Hpre.
  - by rewrite Hx.
  - rewrite (Hpre h (list_elem_of_here h pre)).
    apply IH. intros y Hy. apply Hpre. by apply list_elem_of_further.
Qed.
End ArrayFacts.

(** ** The users resource *)

Module UsersFacts.
Import Express users_ts Props.

(** The read handlers do not write to the module state. *)
Lemma getUserById_state req st res : (getUserById req st res).1 = st.
Proof. unfold getUserById. by destruct (Array.find _ _). Qed.

Lemma read_state c st : is_read c = true -> (dispatch c st).1 = st.
Proof.
  destruct c; simpl; try discriminate; intros _;
    [reflexivity | apply getUserById_state].
Qed.

Lemma reads_state cs st : forallb is_read cs = true -> (run cs st).1 = st.
Proof.
  revert st. induction cs as [|c cs IH]; intros st; simpl; [done|].
  intros [Hc Hcs]%andb_prop.
  pose proof (read_state c st Hc) as Hd.
  destruct (dispatch c st) as [st1 r]. simpl in Hd. subst st1.
  specialize (IH st Hcs). destruct (run cs st) as [st2 rs]. done.
Qed.

(** The response of [getUserById] is decided by the first user whose id is
    [===] the parsed parameter. *)
Lemma getUserById_found req st res u :
  first_with_id (Js.parseInt (id (params req)) 10) (users st) u ->
  getUserById req st res = (st, json (User u) (status 200 res)).
Proof.
  intros (pre & post & Hus & Hu & Hpre). unfold getUserById.
  by rewrite (find_first_Some _ _ pre u post Hus Hu Hpre).
Qed.

Lemma getUserById_missing req st res :
  (forall u, u ∈ users st ->
     Js.strict_eq (UserData.id u) (Js.parseInt (id (params req)) 10) = false) ->
  getUserById req st res = (st, json (Message "User not found") (status 404 res)).
Proof.
  intros Hnone. unfold getUserById.
  by rewrite (proj2 (find_None_all _ _) Hnone).
Qed.

(** C1, evaluated on the code: the create request for Dave on the initial
    array answers with the record of id 4, and the array is left with its
    three users: the record is not in it. *)
Theorem createUser_leaves_users_unchanged :
  let new_dave := UserData.mk (Js.Int 4) "Dave" "dave@x.com" (Js.Int 22) in
  let out := createUser (with_body dave) initial fresh in
  sent out.2 = Some (MessageUser "User created successfully" new_dave)
  /\ users out.1 = [alice; bob; charlie]
  /\ new_dave ∉ users out.1.
Proof.
  simpl. split_and!; [reflexivity..|].
  intros H. repeat (apply elem_of_cons in H as [H|H]; [discriminate H|]).
  inversion H.
Qed.

(** C2, evaluated on the code: after Dave is created with id 4, the lookup
    of id 4 answers 404, user not found. *)
Theorem create_then_lookup_not_found :
  (run [POST_users dave; GET_users_id "4"] initial).2 =
    [ {| statusCode := 201;
         sent := Some (MessageUser "User created successfully"
                         (UserData.mk (Js.Int 4) "Dave" "dave@x.com" (Js.Int 22))) |};
      {| statusCode := 404; sent := Some (Message "User not found") |} ].
Proof. vm_compute. reflexivity. Qed.

(** C3, evaluated on the code: two creates in a row both return id 4, so
    the returned ids have a duplicate. *)
Theorem two_creates_return_same_id :
  created_ids (run [POST_users dave; POST_users eve] initial).2
    = [Js.Int 4; Js.Int 4]
  /\ ~ NoDup (created_ids (run [POST_users dave; POST_users eve] initial).2).
Proof.
  split; [vm_compute; reflexivity|].
  intros H. vm_compute in H. apply NoDup_cons in H as [Hin _].
  apply Hin. apply list_elem_of_here.
Qed.

(** C4, evaluated on the code: the ids returned by two creates run one
    after the other on the initial array are not increasing (both are 4,
    and 4 is not below 4), because the array has not grown in between. *)
Theorem created_ids_not_increasing :
  ~ strictly_increasing
      (created_ids (run [POST_users dave; POST_users eve] initial).2).
Proof.
  intros H.
  specialize (H 0%nat 1%nat (Js.Int 4) (Js.Int 4)).
  assert (Js.lt (Js.Int 4) (Js.Int 4) = true) as Hlt
    by (apply H; [lia | reflexivity | reflexivity]).
  discriminate Hlt.
Qed.

(** C5: whatever id is requested, [getUserById] answers; when some stored
    user has the requested id the answer is 200 with the (first) user of
    that id as body, and otherwise it is 404 with the message
    "User not found".  The array is not touched either way. *)
Theorem getUserById_200_or_404 req st res :
  let userId := Js.parseInt (id (params req)) 10 in
  (has_id userId (users st) ->
     exists u, first_with_id userId (users st) u
       /\ getUserById req st res = (st, json (User u) (status 200 res)))
  /\ (~ has_id userId (users st) ->
     getUserById req st res
       = (st, json (Message "User not found") (status 404 res)))
  /\ is_Some (sent (getUserById req st res).2).
Proof.
  intros userId. split_and!; cycle 2.
  - unfold getUserById. destruct (Array.find _ _); simpl; eauto.
  - intros (u & Hu & Hid).
    destruct (Array.find (fun v => Js.strict_eq (UserData.id v) userId) (users st))
      as [w|] eqn:Hfind.
    + apply find_Some_first in Hfind as (pre & post & Hus & Hw & Hpre).
      assert (first_with_id userId (users st) w) as Hfirst
        by (exists pre, post; auto).
      exists w. split; [done|]. by apply getUserById_found.
    + rewrite find_None_all in Hfind. specialize (Hfind u Hu). congruence.
  - intros Hno. apply getUserById_missing. intros u Hu.
    destruct (Js.strict_eq _ _) eqn:E; [|done].
    exfalso. apply Hno. by exists u.
Qed.

Lemma getUserById_200_or_404_witness :
  (exists u, first_with_id (Js.parseInt "2" 10) (users initial) u
     /\ getUserById (with_id "2") initial fresh
        = (initial, json (User u) (status 200 fresh)))
  /\ getUserById (with_id "999") initial fresh
     = (initial, json (Message "User not found") (status 404 fresh)).
Proof.
  split.
  - apply (getUserById_200_or_404 (with_id "2") initial fresh).
    exists bob. split; [|vm_compute; reflexivity].
    simpl. apply list_elem_of_further, list_elem_of_here.
  - apply (getUserById_200_or_404 (with_id "999") initial fresh).
    intros (u & Hu & Hid). simpl in Hu.
    repeat (apply elem_of_cons in Hu as [->|Hu];
            [vm_compute in Hid; discriminate Hid|]).
    inversion Hu.
Defined.


(** C7: on the initial array of three users, the create request for Dave
    answers 201 with the message and the user of id 4. *)
Theorem createUser_dave :
  (dispatch (POST_users (CreateUserInput.mk "Dave" "dave@x.com" (Js.Int 22))) initial).2
  = {| statusCode := 201;
       sent := Some (MessageUser "User created successfully"
                       (UserData.mk (Js.Int 4) "Dave" "dave@x.com" (Js.Int 22))) |}.
Proof. reflexivity. Qed.

(** C8: the two read handlers leave the array [users] unchanged, and after
    any number of read requests every read request is answered exactly as
    it was before them. *)
Theorem reads_do_not_mutate cs c st (req : Request unit unit) (req' : Request IdParams unit) res :
  forallb is_read cs = true -> is_read c = true ->
  (getAllUsers req st res).1 = st
  /\ (getUserById req' st res).1 = st
  /\ (run cs st).1 = st
  /\ (dispatch c (run cs st).1).2 = (dispatch c st).2.
Proof.
  intros Hcs Hc. split_and!.
  - reflexivity.
  - apply getUserById_state.
  - by apply reads_state.
  - by rewrite reads_state.
Qed.

Lemma reads_do_not_mutate_witness :
  (getAllUsers no_params initial fresh).1 = initial
  /\ (getUserById (with_id "2") initial fresh).1 = initial
  /\ (run [GET_users; GET_users_id "2"; GET_users_id "x"] initial).1 = initial
  /\ (dispatch (GET_users_id "3")
        (run [GET_users; GET_users_id "2"; GET_users_id "x"] initial).1).2
     = (dispatch (GET_users_id "3") initial).2.
Proof.
  apply (reads_do_not_mutate [GET_users; GET_users_id "2"; GET_users_id "x"]
           (GET_users_id "3") initial no_params (with_id "2") fresh);
    reflexivity.
Defined.

(** *** Reading the path parameter *)

Lemma is_digit_radix c :
  is_digit c = true -> Js.radix_digit 10 c = Some (Js.code c - 48).
Proof.
  unfold is_digit, Js.radix_digit, Js.digit_value.
  intros H. rewrite H.
  apply andb_prop in H as [H1%Z.leb_le H2%Z.leb_le].
  destruct (Z.ltb_spec (Js.code c - 48) 10); [done|lia].
Qed.

Lemma not_digit_radix c :
  is_digit c = false -> Js.radix_digit 10 c = None.
Proof.
  unfold is_digit, Js.radix_digit, Js.digit_value.
  intros ->.
  destruct ((97 <=? _) && _) eqn:Hlow.
  - apply andb_prop in Hlow as [H1%Z.leb_le H2%Z.leb_le].
    destruct (Z.ltb_spec (Js.code c - 87) 10); [lia|done].
  - destruct ((65 <=? _) && _) eqn:Hup; [|done].
    apply andb_prop in Hup as [H1%Z.leb_le H2%Z.leb_le].
    destruct (Z.ltb_spec (Js.code c - 55) 10); [lia|done].
Qed.

Lemma digit_not_whitespace c : is_digit c = true -> Js.is_whitespace c = false.
Proof.
  unfold is_digit, Js.is_whitespace.
  intros [H1%Z.leb_le H2%Z.leb_le]%andb_prop.
  repeat match goal with
         | |- context [?a <=? ?b] => destruct (Z.leb_spec a b); try lia
         | |- context [?a =? ?b] => destruct (Z.eqb_spec a b); try lia
         end; reflexivity.
Qed.

Lemma digit_not_sign c :
  is_digit c = true -> (c =? "+")%char = false /\ (c =? "-")%char = false.
Proof.
  intros H. split.
  - destruct (Ascii.eqb_spec c "+"); [subst; discriminate H|done].
  - destruct (Ascii.eqb_spec c "-"); [subst; discriminate H|done].
Qed.

Lemma scan_digits_decimal ds rest acc :
  all_digits ds = true -> starts_with_digit rest = false ->
  Js.scan_digits 10 (ds ++ rest)%string (Some acc) = Some (decimal_from acc ds).
Proof.
  intros Hds Hrest. revert acc.
  induction ds as [|c ds IH]; intros acc; simpl.
  - destruct rest as [|c rest]; [done|]. simpl in Hrest.
    simpl. by rewrite (not_digit_radix c Hrest).
  - simpl in Hds. apply andb_prop in Hds as [Hc Hds].
    rewrite (is_digit_radix c Hc). simpl. by apply IH.
Qed.

Lemma decimal_from_nonneg ds acc :
  all_digits ds = true -> 0 <= acc -> 0 <= decimal_from acc ds.
Proof.
  revert acc. induction ds as [|c ds IH]; intros acc Hds Hacc; simpl; [done|].
  simpl in Hds. apply andb_prop in Hds as [Hc Hds].
  apply andb_prop in Hc as [H1%Z.leb_le H2%Z.leb_le].
  apply IH; [done|lia].
Qed.

(** With radix 10 no prefix is stripped and the radix is kept. *)
Lemma parseInt_10 s :
  Js.parseInt s 10 =
    match Js.scan_digits 10 (after_space_and_sign s) None with
    | None => Js.NaN
    | Some mathInt => Js.of_Z (Js.sign_of (Js.trim_start s) * mathInt)
    end.
Proof. reflexivity. Qed.

Lemma parseInt_leading_digits ds rest :
  ds <> "" -> all_digits ds = true -> starts_with_digit rest = false ->
  Js.parseInt (ds ++ rest)%string 10 = Js.of_Z (decimal_value ds).
Proof.
  intros Hne Hds Hrest. destruct ds as [|c ds]; [done|].
  pose proof Hds as Hds'. simpl in Hds'. apply andb_prop in Hds' as [Hc Htl].
  destruct (digit_not_sign c Hc) as [Hplus Hminus].
  rewrite parseInt_10. unfold after_space_and_sign.
  change (String c ds ++ rest)%string with (String c (ds ++ rest)%string).
  cbn [Js.trim_start]. rewrite (digit_not_whitespace c Hc).
  cbn [Js.drop_sign Js.sign_of]. rewrite Hplus, Hminus.
  cbn [orb Js.scan_digits]. rewrite (is_digit_radix c Hc).
  cbn [default]. rewrite (scan_digits_decimal ds rest _ Htl Hrest).
  rewrite Z.mul_1_l. reflexivity.
Qed.

Lemma parseInt_no_digit p :
  starts_with_digit (after_space_and_sign p) = false -> Js.parseInt p 10 = Js.NaN.
Proof.
  intros H. rewrite parseInt_10.
  destruct (after_space_and_sign p) as [|c rest]; [done|].
  simpl in H. cbn [Js.scan_digits]. by rewrite (not_digit_radix c H).
Qed.

(** Below [2^53] the Number value of an integer is that integer. *)
Lemma of_Z_exact z : Z.abs z < 2 ^ 53 -> Js.of_Z z = Js.Int z.
Proof.
  intros Hz. unfold Js.of_Z, Js.round_double.
  destruct (Z.ltb_spec (Z.abs z) (2 ^ 53)) as [_|]; [|lia].
  rewrite Z.shiftl_1_l.
  assert (2 ^ 53 < 2 ^ 1024) as Hpow by (apply Z.pow_lt_mono_r; lia).
  destruct (Z.leb_spec (2 ^ 1024) (Z.abs z)) as [|_]; [lia|].
  f_equal. lia.
Qed.

Lemma strict_eq_NaN a : Js.strict_eq a Js.NaN = false.
Proof. by destruct a. Qed.

(** C9 fails as stated: the parameters "+2" and " 2" do not begin with a
    digit, yet they parse to 2 and the request answers 200 with Bob. *)
Lemma signed_parameter_is_found :
  starts_with_digit "+2" = false
  /\ Js.parseInt "+2" 10 = Js.Int 2
  /\ (dispatch (GET_users_id "+2") initial).2
     = {| statusCode := 200; sent := Some (User bob) |}
  /\ starts_with_digit " 2" = false
  /\ (dispatch (GET_users_id " 2") initial).2
     = {| statusCode := 200; sent := Some (User bob) |}.
Proof. split_and!; vm_compute; reflexivity. Qed.

(** C9, amended: the lookup key is [parseInt(req.params.id, 10)]: the
    request answers 200 with the first user whose id is that number; a
    parameter made of decimal digits followed by something that is not a
    digit parses to the Number value of these digits, and answers 200 with
    the user of that id; a parameter that has no digit right after its
    leading white space and one optional sign parses to NaN, matches no
    user, and answers 404, whatever the array holds. *)
Theorem getUserById_key_is_parseInt st res :
  (forall p u,
     first_with_id (Js.parseInt p 10) (users st) u ->
     getUserById (with_id p) st res = (st, json (User u) (status 200 res)))
  /\ (forall ds rest u,
     ds <> "" -> all_digits ds = true -> starts_with_digit rest = false ->
     first_with_id (Js.of_Z (decimal_value ds)) (users st) u ->
     Js.parseInt (ds ++ rest)%string 10 = Js.of_Z (decimal_value ds)
     /\ (decimal_value ds < 2 ^ 53 ->
         Js.parseInt (ds ++ rest)%string 10 = Js.Int (decimal_value ds))
     /\ getUserById (with_id (ds ++ rest)%string) st res
        = (st, json (User u) (status 200 res)))
  /\ (forall p,
     starts_with_digit (after_space_and_sign p) = false ->
     Js.parseInt p 10 = Js.NaN
     /\ getUserById (with_id p) st res
        = (st, json (Message "User not found") (status 404 res))).
Proof.
  split_and!.
  - intros p u Hu. by apply getUserById_found.
  - intros ds rest u Hne Hds Hrest Hu.
    pose proof (parseInt_leading_digits ds rest Hne Hds Hrest) as Hkey.
    split_and!; [done| |].
    + intros Hsmall. rewrite Hkey. apply of_Z_exact.
      pose proof (decimal_from_nonneg ds 0 Hds). unfold decimal_value in *. lia.
    + apply getUserById_found. simpl. by rewrite Hkey.
  - intros p Hp. pose proof (parseInt_no_digit p Hp) as Hkey.
    split; [done|]. apply getUserById_missing. simpl.
    intros u _. rewrite Hkey. apply strict_eq_NaN.
Qed.

Lemma getUserById_key_is_parseInt_witness :
  (Js.parseInt "2abc" 10 = Js.of_Z (decimal_value "2")
   /\ (decimal_value "2" < 2 ^ 53 -> Js.parseInt "2abc" 10 = Js.Int (decimal_value "2"))
   /\ getUserById (with_id "2abc") initial fresh
      = (initial, json (User bob) (status 200 fresh)))
  /\ (Js.parseInt "abc" 10 = Js.NaN
      /\ getUserById (with_id "abc") initial fresh
         = (initial, json (Message "User not found") (status 404 fresh))).
Proof.
  pose proof (getUserById_key_is_parseInt initial fresh) as (_ & Hdigits & Hnan).
  split.
  - apply (Hdigits "2" "abc" bob); [discriminate | reflexivity | reflexivity |].
    exists [alice], [charlie]. split_and!; [reflexivity | reflexivity |].
    intros v Hv. apply list_elem_of_singleton in Hv as ->. reflexivity.
  - apply (Hnan "abc"). reflexivity.
Defined.

End UsersFacts.

(** ** The generic container *)

Module DataStoreFacts.
Import Props DataStore.

(** Order between a fraction and an integer, in integers. *)
Lemma Qle_0_fraction n d : (0 <= n # d)%Q <-> 0 <= n.
Proof. unfold Qle. cbn [Qnum Qden]. lia. Qed.

Lemma Qlt_fraction_Z n d k : (n # d < inject_Z k)%Q <-> n < k * Z.pos d.
Proof. unfold Qlt. cbn [Qnum Qden inject_Z]. lia. Qed.

Lemma Q_interval_Z i k :
  (0 <= inject_Z i)%Q /\ (inject_Z i < inject_Z k)%Q <-> 0 <= i < k.
Proof. unfold Qle, Qlt. cbn [Qnum Qden inject_Z]. lia. Qed.

Lemma in_bounds_in_interval index n : in_bounds index n -> in_interval index n.
Proof.
  intros (i & -> & Hi). exists (inject_Z i). split; [reflexivity|].
  by apply Q_interval_Z.
Qed.

(** The guard of [removeItem] is the test that the index lies in
    [0, length), as a number. *)
Lemma guard_in_interval index n :
  Js.ge index (Js.Int 0) && Js.lt index (Js.Int (Z.of_nat n)) = true
  <-> in_interval index n.
Proof.
  unfold in_interval. split.
  - destruct index as [| | |i|m e]; cbn [Js.ge Js.lt]; try discriminate.
    + intros [H0 Hn%Z.ltb_lt]%andb_prop.
      apply negb_true_iff, Z.ltb_ge in H0.
      exists (inject_Z i). split; [reflexivity|].
      apply Q_interval_Z. lia.
    + intros [H0 Hn%Z.ltb_lt]%andb_prop.
      apply negb_true_iff, Z.ltb_ge in H0.
      eexists. split; [reflexivity|].
      rewrite Qle_0_fraction, Qlt_fraction_Z, Pos2Z.inj_pow. lia.
  - intros (q & Hq & H0 & Hn).
    destruct index as [| | |i|m e]; try discriminate Hq;
      injection Hq as <-; cbn [Js.ge Js.lt]; apply andb_true_intro.
    + pose proof (proj1 (Q_interval_Z _ _) (conj H0 Hn)).
      split; [apply negb_true_iff, Z.ltb_ge | apply Z.ltb_lt]; lia.
    + rewrite Qle_0_fraction in H0. rewrite Qlt_fraction_Z, Pos2Z.inj_pow in Hn.
      split; [apply negb_true_iff, Z.ltb_ge | apply Z.ltb_lt]; lia.
Qed.

Section Facts.
Context {T : Type}.
Implicit Types (a : list T) (this : DataStore.t T).

Lemma get_outside a index :
  ~ in_interval index (length a) -> Array.get a index = None.
Proof.
  intros Hout. destruct index as [| | |i|m e]; simpl; try reflexivity.
  destruct (Z.leb_spec 0 i) as [H0|]; [|reflexivity].
  apply lookup_ge_None.
  destruct (Z.lt_ge_cases i (Z.of_nat (length a))) as [Hlt|Hge]; [|lia].
  exfalso. apply Hout, in_bounds_in_interval. by exists i.
Qed.

(** Inside the bounds, [splice(index, 1)] takes out the element at [index]. *)
Lemma splice_one a i :
  0 <= i < Z.of_nat (length a) ->
  Array.splice (Js.Int i) 1 a = take (Z.to_nat i) a ++ drop (S (Z.to_nat i)) a.
Proof.
  intros [H0 Hn]. unfold Array.splice, Array.splice_start.
  destruct (Z.ltb_spec i 0); [lia|].
  rewrite (Z.min_l i) by lia. rewrite (Z.max_l 1 0) by lia.
  rewrite (Z.min_l 1) by lia.
  replace (Z.to_nat (i + 1)) with (S (Z.to_nat i)) by lia. reflexivity.
Qed.

(** For an index of the interval, with or without a fractional part,
    [splice(index, 1)] takes out the element at its integer part. *)
Lemma splice_one_at a index q :
  rational index = Some q ->
  (0 <= q)%Q -> (q < inject_Z (Z.of_nat (length a)))%Q ->
  0 <= Qfloor q < Z.of_nat (length a)
  /\ Array.splice index 1 a
     = take (Z.to_nat (Qfloor q)) a ++ drop (S (Z.to_nat (Qfloor q))) a.
Proof.
  intros Hq H0 Hn.
  destruct index as [| | |i|m e]; try discriminate Hq; injection Hq as <-.
  - pose proof (proj1 (Q_interval_Z _ _) (conj H0 Hn)). rewrite Qfloor_Z.
    split; [lia|]. apply splice_one. lia.
  - rewrite Qle_0_fraction in H0. rewrite Qlt_fraction_Z in Hn.
    cbn [Qfloor].
    assert (0 <= (2 * m + 1) / Z.pos (2 ^ e) < Z.of_nat (length a)) as Hfloor.
    { split; [apply Z.div_pos; lia|].
      apply Z.div_lt_upper_bound; lia. }
    split; [exact Hfloor|].
    unfold Array.splice, Array.splice_start, Js.truncate.
    rewrite <- Pos2Z.inj_pow, Z.quot_div_nonneg by lia.
    set (p := (2 * m + 1) / Z.pos (2 ^ e)) in *.
    destruct (Z.ltb_spec p 0); [lia|].
    rewrite (Z.min_l p) by lia. rewrite (Z.max_l 1 0) by lia.
    rewrite (Z.min_l 1) by lia.
    replace (Z.to_nat (p + 1)) with (S (Z.to_nat p)) by lia. reflexivity.
Qed.
End Facts.

(** C10: [getItem] is defined on every index and is [undefined] on every
    index outside [0, items.length) (negative, too large, NaN, infinite);
    [removeItem] leaves [items] as it is on these indices, and on an
    index of the interval it takes out exactly one element, the one at
    the integer part of the index, which [getItem] returns when the index
    is an integer. *)
Theorem out_of_range_index_is_harmless {T : Type} (this : DataStore.t T) index :
  (~ in_interval index (length (items this)) ->
     getItem index this = None /\ removeItem index this = this)
  /\ (in_interval index (length (items this)) ->
     exists q pre x post,
       rational index = Some q
       /\ items this = pre ++ x :: post
       /\ Z.of_nat (length pre) = Qfloor q
       /\ items (removeItem index this) = pre ++ post
       /\ getItem index this
          = match index with Js.Int _ => Some x | _ => None end).
Proof.
  split.
  - intros Hout. split; [by apply get_outside|].
    unfold removeItem.
    destruct (_ && _) eqn:Hguard; [|reflexivity].
    apply guard_in_interval in Hguard. contradiction.
  - intros Hin. pose proof Hin as (q & Hq & H0 & Hn).
    destruct (splice_one_at (items this) index q Hq H0 Hn) as [Hfloor Hsplice].
    destruct (lookup_lt_is_Some_2 (items this) (Z.to_nat (Qfloor q)))
      as [x Hx]; [lia|].
    exists q, (take (Z.to_nat (Qfloor q)) (items this)), x,
      (drop (S (Z.to_nat (Qfloor q))) (items this)).
    split_and!.
    + exact Hq.
    + symmetry. by apply take_drop_middle.
    + rewrite length_take. lia.
    + unfold removeItem.
      rewrite (proj2 (guard_in_interval _ _) Hin). exact Hsplice.
    + destruct index as [| | |i|m e]; try discriminate Hq; [|reflexivity].
      injection Hq as <-. rewrite Qfloor_Z in Hx, Hfloor.
      unfold getItem. simpl. destruct (Z.leb_spec 0 i); [done|lia].
Qed.

Lemma out_of_range_index_is_harmless_witness :
  let this : DataStore.t Z := {| items := [10; 20; 30] |} in
  (getItem (Js.Int 3) this = None /\ removeItem (Js.Int 3) this = this)
  /\ (getItem Js.NaN this = None /\ removeItem Js.NaN this = this)
  /\ (exists q pre x post,
       rational (Js.Int 1) = Some q
       /\ items this = pre ++ x :: post
       /\ Z.of_nat (length pre) = Qfloor q
       /\ items (removeItem (Js.Int 1) this) = pre ++ post
       /\ getItem (Js.Int 1) this = Some x)
  /\ (exists q pre x post,
       rational (Js.Frac 1 1) = Some q
       /\ items this = pre ++ x :: post
       /\ Z.of_nat (length pre) = Qfloor q
       /\ items (removeItem (Js.Frac 1 1) this) = pre ++ post
       /\ getItem (Js.Frac 1 1) this = None).
Proof.
  intros this. split; [|split; [|split]].
  - apply (out_of_range_index_is_harmless this (Js.Int 3)).
    intros (q & [= <-] & H0 & Hn).
    pose proof (proj1 (Q_interval_Z _ _) (conj H0 Hn)) as Hi. simpl in Hi. lia.
  - apply (out_of_range_index_is_harmless this Js.NaN).
    intros (q & Hq & _). discriminate Hq.
  - apply (out_of_range_index_is_harmless this (Js.Int 1)).
    exists (inject_Z 1). split; [reflexivity|].
    apply Q_interval_Z. simpl. lia.
  - apply (out_of_range_index_is_harmless this (Js.Frac 1 1)).
    eexists. split; [reflexivity|].
    rewrite Qle_0_fraction, Qlt_fraction_Z. simpl. lia.
Defined.

End DataStoreFacts.

(** ** Sanity checks of the model of [parseInt] *)

Example parseInt_2abc : Js.parseInt "2abc" 10 = Js.Int 2.
Proof. vm_compute. reflexivity. Qed.

Example parseInt_abc : Js.parseInt "abc" 10 = Js.NaN.
Proof. vm_compute. reflexivity. Qed.

Example parseInt_empty : Js.parseInt "" 10 = Js.NaN.
Proof. vm_compute. reflexivity. Qed.

Example parseInt_space_minus : Js.parseInt "  -17px" 10 = Js.Int (-17).
Proof. vm_compute. reflexivity. Qed.

Example parseInt_hex_prefix_radix_10 : Js.parseInt "0x1f" 10 = Js.Int 0.
Proof. vm_compute. reflexivity. Qed.

Example parseInt_rounds_to_even :
  Js.parseInt "9007199254740993" 10 = Js.Int 9007199254740992
  /\ Js.parseInt "9007199254740995" 10 = Js.Int 9007199254740996.
Proof. split; vm_compute; reflexivity. Qed.

Example removeItem_fraction :
  DataStore.items
    (DataStore.removeItem (Js.Frac 1 1) {| DataStore.items := [10; 20; 30] |})
  = [10; 30]
  /\ DataStore.getItem (Js.Frac 1 1) {| DataStore.items := [10; 20; 30] |} = None.
Proof. split; vm_compute; reflexivity. Qed.

Example addItem_then_removeItem :
  DataStore.items
    (DataStore.removeItem (Js.Int 0)
       (DataStore.addItem 2 (DataStore.addItem 1 DataStore.constructor)))
  = [2].
Proof. vm_compute. reflexivity. Qed.

(** ** Further properties of the generic container *)

Module DataStoreMore.
Import Props Clients DataStore DataStoreFacts.

Section More.
Context {T : Type}.
Implicit Types (this : DataStore.t T) (x : T) (xs : list T).

Lemma store_eq this a : items this = a -> this = {| items := a |}.
Proof. destruct this as [b]. simpl. by intros ->. Qed.

Lemma get_Int a i :
  0 <= i -> Array.get (T:=T) a (Js.Int i) = a !! Z.to_nat i.
Proof. intros H. simpl. destruct (Z.leb_spec 0 i); [done|lia]. Qed.

Lemma removeItem_in_bounds this i :
  0 <= i < Z.of_nat (length (items this)) ->
  items (removeItem (Js.Int i) this)
  = take (Z.to_nat i) (items this) ++ drop (S (Z.to_nat i)) (items this).
Proof.
  intros Hi. unfold removeItem.
  rewrite (proj2 (guard_in_interval (Js.Int i) (length (items this))))
    by (apply in_bounds_in_interval; by exists i).
  simpl. by apply splice_one.
Qed.

Lemma removeItem_head this :
  items (removeItem (Js.Int 0) this) = drop 1 (items this).
Proof.
  destruct (items this) as [|h a] eqn:Hitems.
  - unfold removeItem. rewrite Hitems. simpl. by rewrite Hitems.
  - rewrite removeItem_in_bounds by (rewrite Hitems; simpl; lia).
    rewrite Hitems. reflexivity.
Qed.

(** X1: [addItem] then [getItem]: on every store, empty or not, the
    added item is read back at the old length, the store is one longer,
    and every other index reads what it read before. *)
Theorem addItem_then_getItem this x :
  getItem (Js.Int (Z.of_nat (length (items this)))) (addItem x this) = Some x
  /\ length (getAllItems (addItem x this)) = S (length (getAllItems this))
  /\ forall index, index <> Js.Int (Z.of_nat (length (items this))) ->
       getItem index (addItem x this) = getItem index this.
Proof.
  unfold getItem, addItem, getAllItems, Array.push. cbn [items]. split_and!.
  - rewrite get_Int by lia. rewrite Nat2Z.id.
    by rewrite lookup_app_r, Nat.sub_diag.
  - rewrite length_app. simpl. lia.
  - intros index Hother.
    destruct index as [| | |i|m e]; try reflexivity.
    destruct (Z.leb_spec 0 i) as [H0|]; [|simpl; by destruct (Z.leb_spec 0 i); [lia|]].
    rewrite !get_Int by lia.
    destruct (Z.lt_trichotomy i (Z.of_nat (length (items this)))) as [Hlt|[->|Hgt]].
    + apply lookup_app_l. lia.
    + done.
    + rewrite !lookup_ge_None_2; [done|lia|rewrite length_app; simpl; lia].
Qed.

(** X2: items come out in the order they were added: after the items of
    [xs] are added one by one, [getAllItems] is the former content
    followed by [xs]; on a new store it is [xs]. *)
Theorem addItems_keeps_order this xs :
  getAllItems (addItems xs this) = getAllItems this ++ xs
  /\ getAllItems (addItems xs constructor) = xs.
Proof.
  assert (forall s, getAllItems (addItems xs s) = getAllItems s ++ xs) as H.
  { induction xs as [|x xs IH]; intros s; simpl.
    - by rewrite app_nil_r.
    - unfold addItems in *. simpl. rewrite IH.
      unfold getAllItems, addItem, Array.push. simpl.
      by rewrite <- app_assoc. }
  split; [apply H|]. by rewrite H.
Qed.

(** X3: [removeItem] at an index in bounds shortens the store by one,
    leaves the positions below the index as they were and moves every
    later item one position down. *)
Theorem removeItem_shifts this i j :
  0 <= i < Z.of_nat (length (items this)) -> 0 <= j ->
  length (items (removeItem (Js.Int i) this)) = pred (length (items this))
  /\ getItem (Js.Int j) (removeItem (Js.Int i) this)
     = if j <? i then getItem (Js.Int j) this else getItem (Js.Int (j + 1)) this.
Proof.
  intros Hi Hj. unfold getItem. rewrite (removeItem_in_bounds this i Hi).
  split.
  - rewrite length_app, length_take, length_drop. lia.
  - rewrite !get_Int by lia.
    destruct (Z.ltb_spec j i).
    + rewrite lookup_app_l by (rewrite length_take; lia).
      apply lookup_take_lt. lia.
    + rewrite lookup_app_r by (rewrite length_take; lia).
      rewrite length_take, lookup_drop. f_equal. lia.
Qed.

(** X4: [removeItem] at the last index undoes the [addItem] before it. *)
Theorem addItem_then_removeItem_last this x :
  removeItem (Js.Int (Z.of_nat (length (items this)))) (addItem x this) = this.
Proof.
  rewrite (store_eq (removeItem _ _) (items this)); [by destruct this|].
  rewrite removeItem_in_bounds.
  - unfold addItem, Array.push. cbn [items]. rewrite Nat2Z.id.
    rewrite take_app_length.
    rewrite drop_app_ge by lia.
    replace (S (length (items this)) - length (items this))%nat with 1%nat by lia.
    simpl. by rewrite app_nil_r.
  - unfold addItem, Array.push. cbn [items]. rewrite length_app. simpl. lia.
Qed.

(** X5: [n] calls of [removeItem(0)] drop the first [n] items (all of
    them when there are fewer), so as many calls as there are items leave
    the store empty. *)
Theorem removeFirst_drops this n :
  items (removeFirst n this) = drop n (items this)
  /\ items (removeFirst (length (items this)) this) = [].
Proof.
  assert (forall k, items (removeFirst k this) = drop k (items this)) as H.
  { induction k as [|k IH]; [by rewrite drop_0|].
    unfold removeFirst in *. simpl. rewrite removeItem_head, IH.
    rewrite drop_drop. f_equal. lia. }
  split; [apply H|]. rewrite H. by apply drop_all.
Qed.

(** X6: on a new store every [getItem] is [undefined] and every
    [removeItem] does nothing, whatever the index (integer, fraction, NaN
    or infinite). *)
Theorem empty_store_is_inert index :
  getItem index (constructor (T:=T)) = None
  /\ removeItem index (constructor (T:=T)) = constructor.
Proof.
  assert (~ in_interval index (length (items (constructor (T:=T))))) as Hout.
  { intros (q & _ & H0 & Hn). simpl in Hn.
    exact (Qlt_irrefl 0 (Qle_lt_trans _ _ _ H0 Hn)). }
  split; [by apply get_outside|].
  unfold removeItem. destruct (_ && _) eqn:Hguard; [|reflexivity].
  apply guard_in_interval in Hguard. contradiction.
Qed.
End More.

Lemma addItem_then_getItem_witness :
  let empty : DataStore.t Z := constructor in
  let this : DataStore.t Z := {| items := [10; 20] |} in
  getItem (Js.Int 0) (addItem 30 empty) = Some 30
  /\ getItem (Js.Int 1) (addItem 30 empty) = getItem (Js.Int 1) empty
  /\ getItem (Js.Int 1) (addItem 30 this) = getItem (Js.Int 1) this.
Proof.
  intros empty this.
  pose proof (addItem_then_getItem empty 30) as (Hread & _ & Hothers).
  pose proof (addItem_then_getItem this 30) as (_ & _ & Hothers').
  split_and!.
  - exact Hread.
  - apply Hothers. discriminate.
  - apply Hothers'. discriminate.
Defined.

Lemma removeItem_shifts_witness :
  let this : DataStore.t Z := {| items := [10; 20; 30] |} in
  length (items (removeItem (Js.Int 1) this)) = 2%nat
  /\ getItem (Js.Int 1) (removeItem (Js.Int 1) this) = getItem (Js.Int 2) this.
Proof.
  intros this.
  apply (removeItem_shifts this 1 1); simpl; lia.
Defined.

End DataStoreMore.

(** ** Further properties of the users resource *)

Module UsersMore.
Import Express users_ts Props Clients UsersFacts.

(** No handler writes to [users]: the reads do not, and the [push] of
    [createUser] is not executed. *)
Lemma dispatch_state c st : (dispatch c st).1 = st.
Proof.
  destruct c; simpl; [reflexivity | apply getUserById_state | reflexivity].
Qed.

(** X7: no request changes the array [users], and a sequence of requests
    gets one response per request, in order, each equal to the response
    the request gets when it is sent alone. *)
Theorem run_answers_each_call_alone cs st :
  run cs st = (st, map (fun c => (dispatch c st).2) cs).
Proof.
  induction cs as [|c cs IH]; simpl; [done|].
  pose proof (dispatch_state c st) as Hd.
  destruct (dispatch c st) as [st1 r]. simpl in Hd. subst st1.
  by rewrite IH.
Qed.

Lemma run_state cs st : (run cs st).1 = st.
Proof.
  revert st. induction cs as [|c cs IH]; intros st; simpl; [done|].
  pose proof (dispatch_state c st) as Hd.
  destruct (dispatch c st) as [st1 r]. simpl in Hd. subst st1.
  specialize (IH st). by destruct (run cs st).
Qed.

(** *** What of the parameter the lookup reads *)

Lemma trim_start_whitespace ws s :
  all_whitespace ws = true -> Js.trim_start (ws ++ s)%string = Js.trim_start s.
Proof.
  induction ws as [|c ws IH]; simpl; [done|].
  intros [Hc Hws]%andb_prop. rewrite Hc. by apply IH.
Qed.

Lemma parseInt_whitespace ws s :
  all_whitespace ws = true -> Js.parseInt (ws ++ s)%string 10 = Js.parseInt s 10.
Proof.
  intros Hws. rewrite !parseInt_10. unfold after_space_and_sign.
  by rewrite (trim_start_whitespace ws s Hws).
Qed.

Lemma scan_leading_digits ds rest :
  ds <> "" -> all_digits ds = true -> starts_with_digit rest = false ->
  Js.scan_digits 10 (ds ++ rest)%string None = Some (decimal_value ds).
Proof.
  intros Hne Hds Hrest. destruct ds as [|c ds]; [done|].
  simpl in Hds. apply andb_prop in Hds as [Hc Htl].
  change (String c ds ++ rest)%string with (String c (ds ++ rest)%string).
  cbn [Js.scan_digits]. rewrite (is_digit_radix c Hc). cbn [default].
  by rewrite (scan_digits_decimal ds rest _ Htl Hrest).
Qed.

Lemma parseInt_signed (sg : ascii) ds rest :
  sg = "+"%char \/ sg = "-"%char ->
  ds <> "" -> all_digits ds = true -> starts_with_digit rest = false ->
  Js.parseInt (String sg (ds ++ rest)%string) 10
  = Js.of_Z ((if (sg =? "-")%char then -1 else 1) * decimal_value ds).
Proof.
  intros Hsg Hne Hds Hrest. rewrite parseInt_10. unfold after_space_and_sign.
  assert (Js.is_whitespace sg = false) as Hws
    by (destruct Hsg as [-> | ->]; reflexivity).
  assert ((sg =? "+")%char || (sg =? "-")%char = true) as Hsign
    by (destruct Hsg as [-> | ->]; reflexivity).
  cbn [Js.trim_start]. rewrite Hws. cbn [Js.drop_sign Js.sign_of].
  rewrite Hsign. by rewrite (scan_leading_digits ds rest Hne Hds Hrest).
Qed.

Lemma append_empty (s : string) : (s ++ "")%string = s.
Proof. induction s as [|c s IH]; simpl; [done|]. by rewrite IH. Qed.

Lemma parseInt_digits ds :
  ds <> "" -> all_digits ds = true -> Js.parseInt ds 10 = Js.of_Z (decimal_value ds).
Proof.
  intros Hne Hds. rewrite <- (append_empty ds) at 1.
  by apply parseInt_leading_digits.
Qed.

(** The response of the lookup is a function of the parsed parameter. *)
Lemma getUserById_same_key p q st res :
  Js.parseInt p 10 = Js.parseInt q 10 ->
  getUserById (with_id p) st res = getUserById (with_id q) st res.
Proof. intros H. unfold getUserById. simpl. by rewrite H. Qed.

(** X9: the lookup reads only the digits of the parameter: white space
    in front, a plus sign before the digits and whatever follows the
    digits change nothing, [/api/users/ +2abc] is answered as
    [/api/users/2]. *)
Theorem getUserById_ignores_padding ws ds rest st res :
  all_whitespace ws = true ->
  ds <> "" -> all_digits ds = true -> starts_with_digit rest = false ->
  getUserById (with_id (ws ++ ds ++ rest)%string) st res
    = getUserById (with_id ds) st res
  /\ getUserById (with_id (ws ++ "+" ++ ds ++ rest)%string) st res
    = getUserById (with_id ds) st res.
Proof.
  intros Hws Hne Hds Hrest.
  pose proof (parseInt_digits ds Hne Hds) as Hkey.
  split; apply getUserById_same_key; rewrite (parseInt_whitespace _ _ Hws), Hkey.
  - by apply parseInt_leading_digits.
  - change ("+" ++ ds ++ rest)%string with (String "+" (ds ++ rest)%string).
    rewrite (parseInt_signed "+" ds rest) by auto.
    change (("+" =? "-")%char) with false. cbv iota. by rewrite Z.mul_1_l.
Qed.

Lemma getUserById_ignores_padding_witness :
  getUserById (with_id "  2abc") initial fresh = getUserById (with_id "2") initial fresh
  /\ getUserById (with_id "  +2abc") initial fresh
     = getUserById (with_id "2") initial fresh.
Proof.
  apply (getUserById_ignores_padding "  " "2" "abc" initial fresh);
    [reflexivity | discriminate | reflexivity | reflexivity].
Defined.

(** X10: whatever requests came before, on the array the module starts
    with the lookup answers 200 with Alice, Bob or Charlie when the
    parameter parses to 1, 2 or 3, and 404 for every other parameter. *)
Theorem lookup_on_initial_users cs p :
  (dispatch (GET_users_id p) (run cs initial).1).2 =
    match Js.parseInt p 10 with
    | Js.Int 1 => response 200 (User alice)
    | Js.Int 2 => response 200 (User bob)
    | Js.Int 3 => response 200 (User charlie)
    | _ => response 404 (Message "User not found")
    end.
Proof.
  rewrite run_state. cbn [dispatch].
  unfold getUserById. cbn [params id users initial Array.find UserData.id].
  destruct (Js.parseInt p 10) as [| | |z|m e]; try reflexivity.
  destruct z as [|[[q|q|]|[q|q|]|]|q]; reflexivity.
Qed.

(** *** Ids that are unique, ids that are not negative *)

Lemma strict_eq_same_key a b k :
  Js.strict_eq a k = true -> Js.strict_eq b k = true -> Js.strict_eq a b = true.
Proof.
  destruct a, b, k; simpl; try discriminate; try reflexivity.
  - intros H1%Z.eqb_eq H2%Z.eqb_eq. apply Z.eqb_eq. congruence.
  - intros [H1%Z.eqb_eq H1'%Pos.eqb_eq]%andb_prop
           [H2%Z.eqb_eq H2'%Pos.eqb_eq]%andb_prop.
    subst. by rewrite Z.eqb_refl, Pos.eqb_refl.
Qed.

(** X11: when no two stored users have the same id, the lookup answers
    with exactly the stored user whose id is the parsed parameter: any
    stored user of that id is the one in the response. *)
Theorem lookup_returns_the_user req st res u :
  distinct_ids (users st) ->
  u ∈ users st ->
  Js.strict_eq (UserData.id u) (Js.parseInt (id (params req)) 10) = true ->
  getUserById req st res = (st, json (User u) (status 200 res)).
Proof.
  intros Hdistinct Hu Hid.
  destruct (Array.find
              (fun v => Js.strict_eq (UserData.id v) (Js.parseInt (id (params req)) 10))
              (users st)) as [w|] eqn:Hfind.
  - pose proof Hfind as (pre & post & Hus & Hw & Hpre)%find_Some_first.
    apply list_elem_of_lookup in Hu as [j Hj].
    assert (users st !! length pre = Some w) as Hi
      by (rewrite Hus; apply list_lookup_middle; reflexivity).
    pose proof (Hdistinct _ _ w u Hi Hj (strict_eq_same_key _ _ _ Hw Hid)) as <-.
    assert (w = u) as <- by congruence.
    unfold getUserById. by rewrite Hfind.
  - rewrite find_None_all in Hfind. specialize (Hfind u Hu). congruence.
Qed.

Lemma initial_distinct_ids : distinct_ids (users initial).
Proof.
  intros i j u v Hi Hj Heq. simpl in Hi, Hj.
  destruct i as [|[|[|i]]], j as [|[|[|j]]]; simpl in Hi, Hj;
    try discriminate; try reflexivity;
    injection Hi as <-; injection Hj as <-; discriminate Heq.
Qed.

Lemma lookup_returns_the_user_witness :
  getUserById (with_id "3rd") initial fresh
  = (initial, json (User charlie) (status 200 fresh)).
Proof.
  apply (lookup_returns_the_user (with_id "3rd") initial fresh charlie).
  - exact initial_distinct_ids.
  - simpl. do 2 apply list_elem_of_further. apply list_elem_of_here.
  - reflexivity.
Defined.






End UsersMore.
